(** * learn-langchain: the example tools and the model configuration

    A shallow embedding of the two scripts [use-agent-tool.py] and
    [use-agent-with-memory-1.py]: the three tool handlers ([get_weather],
    [get_user_profile], [save_user_preference]), the construction of the
    model client from the process environment, and the turns the scripts
    take with the agent, run against an arbitrary agent ([Driver]).

    Python [str] is modelled as [string] (a sequence of bytes, the UTF-8
    encoding of the text), a [dict] with string keys as an insertion-ordered
    association list (the order is visible through [repr]), [os.environ] as a
    [gmap string string].  Python code can read and change the process state
    and can raise, so every function of the scripts is a computation in the
    monad [Py], which threads a [World] and returns an [outcome]. *)

From Stdlib Require Import Ascii.
From stdpp Require Import base option list strings gmap pretty.

(** ** Strings *)

Module Str.

(** [sub in s] of Python: [sub] occurs in [s] as a contiguous run. *)
Fixpoint contains (sub s : string) : bool :=
  String.prefix sub s ||
  match s with
  | EmptyString => false
  | String _ s' => contains sub s'
  end.

(** The same as a proposition. *)
Definition occurs_in (sub s : string) : Prop :=
  ∃ l r, s = l +:+ sub +:+ r.

(** [sep.join(parts)]. *)
Fixpoint join (sep : string) (parts : list string) : string :=
  match parts with
  | [] => ""
  | [p] => p
  | p :: ps => p +:+ sep +:+ join sep ps
  end.

Fixpoint has_char (c : ascii) (s : string) : bool :=
  match s with
  | EmptyString => false
  | String c' s' => bool_decide (c = c') || has_char c s'
  end.

(** [Py_hexdigits]. *)
Definition hexdigit (n : nat) : ascii :=
  default "0"%char (String.get n "0123456789abcdef").

(** The escape [\xhh] of a character below 256. *)
Definition hex_escape (c : ascii) : string :=
  let n := nat_of_ascii c in
  String "\" (String "x" (String (hexdigit (n / 16)) (String (hexdigit (n mod 16)) ""))).

End Str.

(** ** Python values *)

(** The values the scripts' tools handle: strings, and dictionaries with
    string keys.  A dictionary keeps its keys in insertion order. *)
#[warnings="-register-all"]
Inductive value : Type :=
  | VStr (s : string)
  | VDict (items : list (string * value)).

Abbreviation dict := (list (string * value)).

(** [d[k]] as an option: the value of the first (and only) entry of key [k]. *)
Fixpoint dict_lookup (d : dict) (k : string) : option value :=
  match d with
  | [] => None
  | (k', v) :: d' => if decide (k = k') then Some v else dict_lookup d' k
  end.

(** [d[k] = v]: an existing key keeps its position, a new key goes last. *)
Fixpoint dict_setitem (d : dict) (k : string) (v : value) : dict :=
  match d with
  | [] => [(k, v)]
  | (k', v') :: d' =>
      if decide (k = k') then (k', v) :: d' else (k', v') :: dict_setitem d' k v
  end.

(** A dictionary display [{k1: v1, ..., kn: vn}]: the entries are stored from
    left to right. *)
Definition dict_display (entries : list (string * value)) : dict :=
  foldl (λ d kv, dict_setitem d kv.1 kv.2) [] entries.

Definition dict_keys (d : dict) : list string := d.*1.

(** Characters by code, for those a literal cannot hold. *)
Definition squote : ascii := "'"%char.
Definition dquote : ascii := ascii_of_nat 34.
Definition backslash : ascii := "\"%char.
Definition tab : ascii := ascii_of_nat 9.
Definition newline : ascii := ascii_of_nat 10.
Definition creturn : ascii := ascii_of_nat 13.

(** [repr] of a [str], after CPython's [unicode_repr]: the delimiter is the
    single quote unless the string has a single quote and no double quote; the
    delimiter and the backslash are escaped, tab, newline and carriage return
    get their letter, the other control characters and DEL a [\xhh].  A byte
    from 128 on belongs to the encoding of a character outside ASCII and is
    copied, as CPython does for the printable ones. *)
Definition repr_quote (s : string) : ascii :=
  if Str.has_char squote s && negb (Str.has_char dquote s) then dquote else squote.

Definition repr_char (quote c : ascii) : string :=
  if bool_decide (c = quote) || bool_decide (c = backslash) then String backslash (String c "")
  else if bool_decide (c = tab) then String backslash "t"
  else if bool_decide (c = newline) then String backslash "n"
  else if bool_decide (c = creturn) then String backslash "r"
  else if (nat_of_ascii c <? 32) || (nat_of_ascii c =? 127) then Str.hex_escape c
  else String c "".

Fixpoint repr_chars (quote : ascii) (s : string) : string :=
  match s with
  | EmptyString => ""
  | String c s' => repr_char quote c +:+ repr_chars quote s'
  end.

Definition repr_str (s : string) : string :=
  let q := repr_quote s in
  String q (repr_chars q s +:+ String q "").

(** [repr(v)]; a dictionary shows its entries in order, as [key: value]
    separated by a comma and a space, between braces. *)
Fixpoint repr (v : value) : string :=
  match v with
  | VStr s => repr_str s
  | VDict items =>
      "{" +:+ Str.join ", " (map (λ kv, repr_str kv.1 +:+ ": " +:+ repr kv.2) items) +:+ "}"
  end.

(** [format(v, '')], what a replacement field [{v}] of an f-string inserts:
    [str(v)], which is the string itself for a [str] and [repr] for a [dict]. *)
Definition format_value (v : value) : string :=
  match v with
  | VStr s => s
  | VDict _ => repr v
  end.

(** ** The process state and the monad of the scripts *)

(** What a statement of the scripts can observe or change outside its own
    locals: the environment variables and the text printed so far. *)
Record World : Type := mkWorld {
  environ : gmap string string;
  stdout : list string;
}.

(** The exceptions the modelled operations can raise. *)
Inductive exn : Type :=
  | AttributeError (attribute : string)
  | KeyError (key : string).

Inductive outcome (A : Type) : Type :=
  | Returned (a : A)
  | Raised (e : exn).
Arguments Returned {A} a.
Arguments Raised {A} e.

Definition Py (A : Type) : Type := World → outcome A * World.

Definition ret {A} (a : A) : Py A := λ w, (Returned a, w).

Definition raise {A} (e : exn) : Py A := λ w, (Raised e, w).

Definition bind {A B} (m : Py A) (k : A → Py B) : Py B :=
  λ w, match m w with
       | (Returned a, w') => k a w'
       | (Raised e, w') => (Raised e, w')
       end.

Notation "'let*' x ':=' m 'in' k" := (bind m (λ x, k))
  (at level 10, x name, m at level 100, k at level 200,
   format "'[v' 'let*'  x  :=  m  'in'  '/' k ']'").

(** [obj.get(key, default)]: the method exists on a dictionary only. *)
Definition method_get (obj : value) (key : string) (dflt : value) : Py value :=
  match obj with
  | VDict d => ret (default dflt (dict_lookup d key))
  | VStr _ => raise (AttributeError "get")
  end.

(** [obj[key]], which raises [KeyError] on a missing key; the scripts' tools
    never use it, [get_user_profile] goes through [method_get]. *)
Definition subscript (obj : value) (key : string) : Py value :=
  match obj with
  | VDict d =>
      match dict_lookup d key with
      | Some v => ret v
      | None => raise (KeyError key)
      end
  | VStr _ => raise (AttributeError "__getitem__")
  end.

(** [os.getenv(key)]: the variable's value, [None] when it is not set. *)
Definition os_getenv (key : string) : Py (option string) :=
  λ w, (Returned (environ w !! key), w).

(** [print(text)]: the text, then a newline, goes to the standard output;
    [stdout] holds one entry for each call, and the text of a call can span
    several lines. *)
Definition print (text : string) : Py unit :=
  λ w, (Returned (), mkWorld (environ w) (stdout w ++ [text])).

(** ** use-agent-tool.py *)

Definition get_weather (location : string) : Py string :=
  ret ("The weather in " +:+ format_value (VStr location) +:+ " is sunny.").

(** The keyword arguments the scripts pass to [ChatOpenAI]; [None] is
    Python's [None]. *)
Record ChatOpenAI : Type := mkChatOpenAI {
  arg_model : option string;
  arg_base_url : option string;
  arg_api_key : option string;
}.

(** The three keyword arguments of the statement
    [model = ChatOpenAI(model=os.getenv("MODEL_NAME"), ...)], the same in both
    scripts, as Python evaluates them before the constructor is entered.  The
    statement runs after [load_dotenv()], so the world it is given is the
    process state once the [.env] file has been loaded.  What the
    constructor makes of the arguments is [ChatOpenAI_init] below. *)
Definition model : Py ChatOpenAI :=
  let* m := os_getenv "MODEL_NAME" in
  let* b := os_getenv "BASE_URL" in
  let* k := os_getenv "API_KEY" in
  ret (mkChatOpenAI m b k).

(** The configuration of a constructed client, for the three settings the
    scripts give. *)
Record Client : Type := mkClient {
  client_model : string;
  client_base_url : option string;
  client_api_key : string;
}.

Inductive construction : Type :=
  | Built (c : Client)
  | Rejected (setting : string).

(** The constructor of [ChatOpenAI] belongs to the imported library
    [langchain_openai], not to the scripts.  It is modelled for the three
    settings only, and for an argument that is [None]: a model that is [None]
    is rejected; an API key that is [None] is taken from the variable
    [OPENAI_API_KEY], and the construction is rejected when that is not set
    either; a base URL that is [None] is taken from [OPENAI_API_BASE], and
    stays [None] (the library's own endpoint) when that is not set. *)
Definition ChatOpenAI_init (args : ChatOpenAI) (w : World) : construction :=
  match arg_model args with
  | None => Rejected "model"
  | Some m =>
      match arg_api_key args ∪ environ w !! "OPENAI_API_KEY" with
      | None => Rejected "api_key"
      | Some key =>
          Built (mkClient m (arg_base_url args ∪ environ w !! "OPENAI_API_BASE") key)
      end
  end.

(** The whole statement [model = ChatOpenAI(...)]: the arguments, then the
    constructor. *)
Definition model_client (w : World) : construction :=
  match model w with
  | (Returned args, w') => ChatOpenAI_init args w'
  | (Raised _, _) => Rejected "arguments"
  end.



(** ** use-agent-with-memory-1.py *)

(** The local [profiles] of [get_user_profile]. *)
Definition profiles : dict :=
  dict_display [
    ("user_123", VDict (dict_display [
       ("name", VStr "Alice");
       ("preferences", VDict (dict_display [("theme", VStr "dark"); ("language", VStr "en")]))]));
    ("user_456", VDict (dict_display [
       ("name", VStr "Bob");
       ("preferences", VDict (dict_display [("theme", VStr "light"); ("language", VStr "zh")]))]))
  ].

(** The [return] of [get_user_profile], for the profile found. *)
Definition describe_profile (profile : value) : Py string :=
  let* name := method_get profile "name" (VStr "Unknown") in
  let* prefs := method_get profile "preferences" (VDict (dict_display [])) in
  ret ("User: " +:+ format_value name +:+ ", Prefs: " +:+ format_value prefs).

Definition get_user_profile (user_id : string) : Py string :=
  let* profile := method_get (VDict profiles) user_id (VDict (dict_display [])) in
  describe_profile profile.

Definition save_user_preference (user_id key val : string) : Py string :=
  ret ("Saved preference: " +:+ format_value (VStr user_id) +:+ " - "
       +:+ format_value (VStr key) +:+ ": " +:+ format_value (VStr val)).

(** ** Properties of computations *)

(** A computation is pure when its outcome is the same in every world and it
    leaves the world as it found it. *)
Definition side_effect_free {A} (m : Py A) : Prop := ∀ w, (m w).2 = w.

Definition deterministic {A} (m : Py A) : Prop := ∀ w w', (m w).1 = (m w').1.

Definition pure {A} (m : Py A) : Prop := deterministic m ∧ side_effect_free m.

(** The environment variables the scripts name. *)
Definition client_variables : list string := ["MODEL_NAME"; "BASE_URL"; "API_KEY"].

(** Two worlds that agree on the variables [keys]. *)
Definition agree_on (keys : list string) (w w' : World) : Prop :=
  ∀ k, k ∈ keys → environ w !! k = environ w' !! k.

(** ** The turns with the agent *)

(** The statements of the two scripts that follow the construction of the
    agent: they call [agent.invoke] and print.  The agent itself (the model
    behind it, its tool calls, its checkpoint store) belongs to the imported
    framework, so a script is a tree of requests, to be run against any
    agent at all. *)
Module Driver.

(** A message: the dictionaries [{"role": ..., "content": ...}] the scripts
    pass in, and the message objects the agent returns, of which the scripts
    read the text [.content]. *)
Record message : Type := Message {
  role : string;
  content : string;
}.

(** [class CustomAgentState(AgentState)]: the [messages] of [AgentState] and
    the four fields the class adds.  A field is [None] when the dictionary has
    no such key: the first script passes [messages] only, and the second
    reads [interaction_count] with [get] and a default. *)
Record CustomAgentState : Type := mkState {
  messages : list message;
  user_id : option string;
  user_name : option string;
  preferences : option dict;
  interaction_count : option Z;
}.

(** A script: it ends, indexes an empty list, calls
    [agent.invoke(input, config={"configurable": {"thread_id": t}})] (no
    [config] when the thread is [None]) and goes on with the state returned,
    or calls [print] with a text.  The text of one call can hold newlines,
    and is then shown as several lines. *)
Inductive script (A : Type) : Type :=
  | Return (a : A)
  | RaiseIndexError
  | Invoke (input : CustomAgentState) (thread : option string)
           (k : CustomAgentState → script A)
  | Print (text : string) (k : script A).
Arguments Return {A} a.
Arguments RaiseIndexError {A}.
Arguments Invoke {A} input thread k.
Arguments Print {A} text k.

Fixpoint sbind {A B} (p : script A) (f : A → script B) : script B :=
  match p with
  | Return a => f a
  | RaiseIndexError => RaiseIndexError
  | Invoke input thread k => Invoke input thread (λ reply, sbind (k reply) f)
  | Print text k => Print text (sbind k f)
  end.

#[global] Instance script_ret : MRet script := @Return.
#[global] Instance script_bind : MBind script := λ A B f p, sbind p f.

Definition invoke (input : CustomAgentState) (thread : option string)
  : script CustomAgentState :=
  Invoke input thread Return.

(** [print(a, b, ...)]: one call, which writes the arguments, already
    strings, separated by a space. *)
Definition print_args (args : list string) : script unit :=
  Print (Str.join " " args) (Return ()).

(** [l[-1]]. *)
Definition last_item {X} (l : list X) : script X :=
  match last l with
  | Some x => Return x
  | None => RaiseIndexError
  end.

(** *** use-agent-tool.py, lines 24 to 28 *)

Definition tool_input : CustomAgentState :=
  mkState [Message "user" "What is the weather in Tokyo?"] None None None None.

Definition tool_script : script unit :=
  result ← invoke tool_input None;
  m ← last_item (messages result);
  print_args [content m].

(** *** use-agent-with-memory-1.py, lines 56 to 105 *)

Definition thread_id : string := "thread_001".

Definition input1 : CustomAgentState :=
  mkState [Message "user" "Hi, my name is Alice and I prefer dark theme"]
          (Some "user_123") (Some "Alice")
          (Some (dict_display [("theme", VStr "dark")])) (Some 1%Z).

Definition input2 : CustomAgentState :=
  mkState [Message "user" "What theme do you think I prefer?"]
          (Some "user_123") (Some "Alice")
          (Some (dict_display [("theme", VStr "dark")])) (Some 2%Z).

Definition input3 : CustomAgentState :=
  mkState [Message "user" "Save my language preference as Chinese"]
          (Some "user_123") (Some "Alice")
          (Some (dict_display [("theme", VStr "dark"); ("language", VStr "zh")]))
          (Some 3%Z).

Definition memory_script : script unit :=
  print_args ["=== 第一次交互 ==="];;
  result1 ← invoke input1 (Some thread_id);
  m1 ← last_item (messages result1);
  print_args ["Agent Response:"; content m1];;
  print_args ["Interaction Count: " +:+ pretty (default 0%Z (interaction_count result1))];;
  print_args [];;
  print_args ["=== 第二次交互（同一线程） ==="];;
  result2 ← invoke input2 (Some thread_id);
  m2 ← last_item (messages result2);
  print_args ["Agent Response:"; content m2];;
  print_args ["Message History Length: " +:+ pretty (length (messages result2))];;
  print_args [];;
  print_args ["=== 第三次交互（同一线程） ==="];;
  result3 ← invoke input3 (Some thread_id);
  m3 ← last_item (messages result3);
  print_args ["Agent Response:"; content m3];;
  print_args [].

(** *** Running a script against an agent *)

(** What a run shows from outside, in order: the calls of the agent and the
    calls of [print], each with the text it wrote. *)
Inductive event : Type :=
  | Invoked (input : CustomAgentState) (thread : option string)
  | Printed (text : string).

(** How a run ends: the script reached its end, it indexed an empty list, or
    the agent raised [e] and nothing caught it. *)
Inductive ending (E A : Type) : Type :=
  | Finished (a : A)
  | IndexError
  | AgentError (e : E).
Arguments Finished {E A} a.
Arguments IndexError {E A}.
Arguments AgentError {E A} e.

Record run (Store E A : Type) : Type := Run {
  trace : list event;
  result : ending E A;
  store : Store;
}.
Arguments Run {Store E A} trace result store.
Arguments trace {Store E A} r.
Arguments result {Store E A} r.
Arguments store {Store E A} r.

Section Exec.
Context {Store E : Type}.

(** An agent: from the input state, the thread and whatever it keeps between
    calls, a returned state or an exception, and what it keeps from then on. *)
Variable agent : CustomAgentState → option string → Store → (CustomAgentState + E) * Store.

Fixpoint exec {A} (p : script A) (s : Store) : run Store E A :=
  match p with
  | Return a => Run [] (Finished a) s
  | RaiseIndexError => Run [] IndexError s
  | Invoke input thread k =>
      match agent input thread s with
      | (inl reply, s') =>
          let r := exec (k reply) s' in
          Run (Invoked input thread :: trace r) (result r) (store r)
      | (inr e, s') => Run [Invoked input thread] (AgentError e) s'
      end
  | Print text k =>
      let r := exec k s in
      Run (Printed text :: trace r) (result r) (store r)
  end.

End Exec.

(** The calls of the agent in a trace, and the texts of its calls of
    [print]. *)
Definition invocations (tr : list event) : list (CustomAgentState * option string) :=
  omap (λ ev, match ev with Invoked i t => Some (i, t) | Printed _ => None end) tr.

Definition printed (tr : list event) : list string :=
  omap (λ ev, match ev with Printed l => Some l | Invoked _ _ => None end) tr.

(** [P] holds of every call the script can make, whatever the agent
    answers. *)
Fixpoint every_call {A} (P : CustomAgentState → option string → Prop)
    (p : script A) : Prop :=
  match p with
  | Return _ | RaiseIndexError => True
  | Invoke input thread k => P input thread ∧ ∀ reply, every_call P (k reply)
  | Print _ k => every_call P k
  end.

(** Agents to run the scripts against: one that keeps the history of each
    thread and answers every turn with one message, one that answers and
    keeps nothing, one that returns no message, one that raises. *)
Definition remembering_agent (input : CustomAgentState) (thread : option string)
    (s : gmap string (list message)) :
    (CustomAgentState + string) * gmap string (list message) :=
  let before := default [] (t ← thread; s !! t) in
  let history := before ++ messages input ++ [Message "assistant" "ok"] in
  (inl (mkState history (user_id input) (user_name input) (preferences input)
                (interaction_count input)),
   match thread with Some t => <[t := history]> s | None => s end).

Definition stateless_agent (input : CustomAgentState) (thread : option string)
    (s : unit) : (CustomAgentState + string) * unit :=
  (inl (mkState (messages input ++ [Message "assistant" "ok"]) None None None None), s).

Definition silent_agent (input : CustomAgentState) (thread : option string)
    (s : unit) : (CustomAgentState + string) * unit :=
  (inl (mkState [] None None None None), s).

Definition failing_agent (input : CustomAgentState) (thread : option string)
    (s : unit) : (CustomAgentState + string) * unit :=
  (inr "connection refused", s).

End Driver.

(** * Proofs *)

(** ** Strings *)

Module StrFacts.
Import Str.

Lemma app_cons (x : ascii) (a b : string) : String x a +:+ b = String x (a +:+ b).
Proof. reflexivity. Qed.

Lemma app_assoc (a b c : string) : (a +:+ b) +:+ c = a +:+ b +:+ c.
Proof.
  induction a as [|x a IH]; [reflexivity |].
  by rewrite !app_cons, IH.
Qed.

Lemma app_empty_r (a : string) : a +:+ "" = a.
Proof.
  induction a as [|x a IH]; [reflexivity |].
  by rewrite app_cons, IH.
Qed.

Lemma prefix_app (p r : string) : String.prefix p (p +:+ r) = true.
Proof.
  induction p as [|x p IH].
  - by destruct r.
  - rewrite app_cons. simpl. by destruct (ascii_dec x x).
Qed.

Lemma prefix_inv (p s : string) : String.prefix p s = true → ∃ r, s = p +:+ r.
Proof.
  revert s. induction p as [|x p IH]; intros s H.
  - by exists s.
  - destruct s as [|y s]; simpl in H; [done |].
    destruct (ascii_dec x y) as [->|]; [| done].
    destruct (IH s H) as [r ->]. by exists r.
Qed.

Lemma contains_unfold (sub s : string) :
  contains sub s =
  String.prefix sub s || match s with "" => false | String _ s' => contains sub s' end.
Proof. by destruct s. Qed.

Lemma contains_intro (l sub r : string) : contains sub (l +:+ sub +:+ r) = true.
Proof.
  induction l as [|x l IH].
  - change ("" +:+ sub +:+ r) with (sub +:+ r).
    by rewrite contains_unfold, prefix_app.
  - rewrite app_cons, contains_unfold, IH. apply orb_true_r.
Qed.

(** The executable test decides the proposition. *)
Lemma contains_occurs (sub s : string) : contains sub s = true ↔ occurs_in sub s.
Proof.
  split.
  - induction s as [|x s IH]; rewrite contains_unfold; intros H.
    + rewrite orb_false_r in H. destruct (prefix_inv _ _ H) as [r ->].
      by exists "", r.
    + apply orb_true_iff in H as [H|H].
      * destruct (prefix_inv _ _ H) as [r ->]. by exists "", r.
      * destruct (IH H) as (l & r & ->). by exists (String x l), r.
  - intros (l & r & ->). apply contains_intro.
Qed.

End StrFacts.

(** Closes [Str.contains sub s = true] from the text before and after [sub]. *)
Ltac occurs_between l r :=
  apply StrFacts.contains_occurs; exists l, r;
  rewrite ?StrFacts.app_assoc, ?StrFacts.app_empty_r; reflexivity.

(** ** The monad *)

Lemma pure_outcome {A} (m : Py A) : pure m ↔ ∃ o, ∀ w, m w = (o, w).
Proof.
  split.
  - intros [Hd He]. exists (m (mkWorld ∅ [])).1. intros w.
    rewrite (surjective_pairing (m w)). by rewrite (Hd w (mkWorld ∅ [])), He.
  - intros [o Ho]. split; intros w; [intros w' |]; by rewrite !Ho.
Qed.

Lemma pure_ret {A} (a : A) : pure (ret a).
Proof. apply pure_outcome. by exists (Returned a). Qed.

Lemma pure_raise {A} (e : exn) : pure (raise (A:=A) e).
Proof. apply pure_outcome. by exists (Raised e). Qed.

Lemma pure_bind {A B} (m : Py A) (k : A → Py B) :
  pure m → (∀ a, pure (k a)) → pure (bind m k).
Proof.
  intros [o Ho]%pure_outcome Hk. apply pure_outcome.
  destruct o as [a|e].
  - destruct (proj1 (pure_outcome _) (Hk a)) as [o' Ho'].
    exists o'. intros w. unfold bind. by rewrite Ho, Ho'.
  - exists (Raised e). intros w. unfold bind. by rewrite Ho.
Qed.

Lemma pure_method_get (obj : value) (key : string) (dflt : value) :
  pure (method_get obj key dflt).
Proof. destruct obj; [apply pure_raise | apply pure_ret]. Qed.

Create HintDb pure_db.
#[global] Hint Resolve pure_ret pure_raise pure_method_get : pure_db.
#[global] Hint Extern 2 (pure (bind _ _)) => apply pure_bind; [| intros ?] : pure_db.

(** The predicate is not void: printing changes the world, and reading a
    variable depends on it. *)
Lemma print_not_pure (text : string) : ¬ pure (print text).
Proof.
  intros [_ He]. specialize (He (mkWorld ∅ [])).
  simpl in He. by injection He.
Qed.

Lemma os_getenv_not_pure (key : string) : ¬ pure (os_getenv key).
Proof.
  intros [Hd _].
  specialize (Hd (mkWorld ∅ []) (mkWorld {[ key := "" ]} [])).
  simpl in Hd. rewrite lookup_empty, lookup_singleton_eq in Hd. done.
Qed.

(** ** Dictionaries *)

Lemma dict_lookup_None (d : dict) (k : string) :
  dict_lookup d k = None ↔ k ∉ dict_keys d.
Proof.
  induction d as [|[k' v] d IH]; cbn [dict_lookup].
  - split; [intros _; apply not_elem_of_nil | done].
  - unfold dict_keys in *. rewrite fmap_cons, not_elem_of_cons. cbn [fst].
    destruct (decide (k = k')) as [->|Hne].
    + split; [done | by intros [? _]].
    + rewrite IH. split; [by intros H | by intros [_ H]].
Qed.

Lemma dict_lookup_Some (d : dict) (k : string) (v : value) :
  dict_lookup d k = Some v → (k, v) ∈ d.
Proof.
  induction d as [|[k' v'] d IH]; cbn [dict_lookup]; [done |].
  destruct (decide (k = k')) as [->|Hne].
  - intros [= ->]. apply list_elem_of_here.
  - intros H. apply list_elem_of_further, IH, H.
Qed.

(** The table of [get_user_profile] has the two users, in this order. *)
Lemma profiles_keys : dict_keys profiles = ["user_123"; "user_456"].
Proof. reflexivity. Qed.

(** Every entry of the table is itself a dictionary. *)
Lemma profiles_entries (k : string) (v : value) :
  (k, v) ∈ profiles → ∃ d, v = VDict d.
Proof.
  intros H. vm_compute in H.
  repeat (apply elem_of_cons in H as [[= -> ->]|H]; [by eexists |]).
  by apply elem_of_nil in H.
Qed.

Lemma profiles_get (user_id : string) (w : World) :
  ∃ d, method_get (VDict profiles) user_id (VDict (dict_display [])) w
       = (Returned (VDict d), w).
Proof.
  unfold method_get, ret.
  destruct (dict_lookup profiles user_id) as [v|] eqn:E; cbn [default].
  - apply dict_lookup_Some, profiles_entries in E as [d ->]. by exists d.
  - by eexists.
Qed.

(** On a dictionary, whatever its entries, the [return] line raises nothing;
    on a string it would. *)
Lemma describe_profile_dict (d : dict) (w : World) :
  ∃ s, describe_profile (VDict d) w = (Returned s, w).
Proof. by eexists. Qed.

Lemma describe_profile_str (s : string) (w : World) :
  describe_profile (VStr s) w = (Raised (AttributeError "get"), w).
Proof. reflexivity. Qed.

(** With a subscript in place of [get], an unknown user would be a
    [KeyError]. *)
Lemma subscript_missing (d : dict) (k : string) (w : World) :
  k ∉ dict_keys d → subscript (VDict d) k w = (Raised (KeyError k), w).
Proof. intros H%dict_lookup_None. unfold subscript. by rewrite H. Qed.

(** ** The tools *)

(** C10: [get_weather(location)] is exactly the template
    ["The weather in " + location + " is sunny."], and the call leaves the
    world as it was. *)
Theorem get_weather_template (location : string) (w : World) :
  get_weather location w
  = (Returned ("The weather in " +:+ location +:+ " is sunny."), w).
Proof. reflexivity. Qed.

(** C2: for every string [location], [get_weather(location)] returns a string
    in which [location] occurs and in which the word [sunny] occurs. *)
Theorem get_weather_contains (location : string) (w : World) :
  ∃ s, get_weather location w = (Returned s, w)
       ∧ Str.contains location s = true
       ∧ Str.contains "sunny" s = true.
Proof.
  eexists. split; [reflexivity |]. cbn [format_value]. split.
  - occurs_between "The weather in " " is sunny.".
  - occurs_between ("The weather in " +:+ location +:+ " is ") ".".
Qed.

(** C3: [get_user_profile("user_123")] returns a string in which [Alice]
    occurs and in which the [repr] of the mapping
    [{"theme": "dark", "language": "en"}] occurs. *)
Theorem get_user_profile_alice (w : World) :
  ∃ s, get_user_profile "user_123" w = (Returned s, w)
       ∧ Str.contains "Alice" s = true
       ∧ Str.contains
           (repr (VDict (dict_display [("theme", VStr "dark"); ("language", VStr "en")]))) s
         = true.
Proof.
  exists "User: Alice, Prefs: {'theme': 'dark', 'language': 'en'}".
  split; [reflexivity |]. split; vm_compute; reflexivity.
Qed.

(** C4: for every [user_id] that is not a key of the table, that is neither
    [user_123] nor [user_456], [get_user_profile(user_id)] returns a string
    in which [Unknown] occurs and in which the [repr] of the empty mapping
    occurs. *)
Theorem get_user_profile_unknown (user_id : string) (w : World) :
  user_id ∉ dict_keys profiles →
  ∃ s, get_user_profile user_id w = (Returned s, w)
       ∧ Str.contains "Unknown" s = true
       ∧ Str.contains (repr (VDict (dict_display []))) s = true.
Proof.
  intros H%dict_lookup_None.
  exists "User: Unknown, Prefs: {}". split.
  - unfold get_user_profile, bind, method_get at 1, ret. rewrite H. reflexivity.
  - split; vm_compute; reflexivity.
Qed.

Lemma get_user_profile_unknown_witness :
  ("user_789" ∉ dict_keys profiles)
  ∧ ∃ s, get_user_profile "user_789" (mkWorld ∅ []) = (Returned s, mkWorld ∅ [])
         ∧ Str.contains "Unknown" s = true
         ∧ Str.contains (repr (VDict (dict_display []))) s = true.
Proof.
  split; [compute_done |].
  apply (get_user_profile_unknown "user_789"). compute_done.
Defined.

(** C5: for all strings [user_id], [key] and [val], the empty string
    included, [save_user_preference(user_id, key, val)] returns a string in
    which each of the three occurs verbatim. *)
Theorem save_user_preference_contains (user_id key val : string) (w : World) :
  ∃ s, save_user_preference user_id key val w = (Returned s, w)
       ∧ Str.contains user_id s = true
       ∧ Str.contains key s = true
       ∧ Str.contains val s = true.
Proof.
  eexists. split; [reflexivity |]. cbn [format_value]. repeat split.
  - occurs_between "Saved preference: " (" - " +:+ key +:+ ": " +:+ val).
  - occurs_between ("Saved preference: " +:+ user_id +:+ " - ") (": " +:+ val).
  - occurs_between ("Saved preference: " +:+ user_id +:+ " - " +:+ key +:+ ": ") "".
Qed.

(** C9: [get_user_profile] returns a string and raises nothing for every
    string [user_id], a key of the table or not; and its [return] line does
    so for every profile that is a dictionary, with or without a [name] or a
    [preferences] entry, since each lookup is a [get] with a default. *)
Theorem get_user_profile_total :
  (∀ user_id w, ∃ s, get_user_profile user_id w = (Returned s, w))
  ∧ (∀ d w, ∃ s, describe_profile (VDict d) w = (Returned s, w)).
Proof.
  split; [| apply describe_profile_dict].
  intros user_id w. unfold get_user_profile, bind.
  destruct (profiles_get user_id w) as [d ->].
  apply describe_profile_dict.
Qed.

(** C7: the three tool handlers are pure: the outcome of a call is the same
    in every world, so two calls with equal arguments return equal strings,
    and a call leaves the world as it found it. *)
Theorem tool_handlers_pure :
  (∀ location, pure (get_weather location))
  ∧ (∀ user_id, pure (get_user_profile user_id))
  ∧ (∀ user_id key val, pure (save_user_preference user_id key val)).
Proof.
  split; [| split]; intros;
    unfold get_weather, get_user_profile, describe_profile, save_user_preference;
    auto 10 with pure_db.
Qed.

(** ** The model client *)

Lemma model_run (w : World) :
  model w
  = (Returned (mkChatOpenAI (environ w !! "MODEL_NAME") (environ w !! "BASE_URL")
                            (environ w !! "API_KEY")), w).
Proof. reflexivity. Qed.

(** X4: each of the three variables is read: worlds that build the same
    client agree on all three. *)
Lemma model_reads_each (w w' : World) :
  (model w).1 = (model w').1 → agree_on client_variables w w'.
Proof.
  rewrite !model_run. cbn [fst]. intros [= Hm Hb Hk] k Hin.
  unfold client_variables in Hin.
  repeat (apply elem_of_cons in Hin as [->|Hin]; [done |]).
  by apply elem_of_nil in Hin.
Qed.


Lemma model_client_unset (out : list string) :
  model_client (mkWorld ∅ out) = Rejected "model".
Proof. reflexivity. Qed.



(** * Further properties of the tools *)

Module StrMore.

Lemma length_app (a b : string) :
  String.length (a +:+ b) = String.length a + String.length b.
Proof.
  induction a as [|x a IH]; [reflexivity |].
  rewrite StrFacts.app_cons. cbn [String.length]. by rewrite IH.
Qed.

(** A common ending can be dropped from both sides. *)
Lemma app_inv_tail (a b c : string) : a +:+ c = b +:+ c → a = b.
Proof.
  revert b. induction a as [|x a IH]; intros [|y b] H.
  - reflexivity.
  - apply (f_equal String.length) in H.
    rewrite !length_app in H. cbn [String.length] in H. lia.
  - apply (f_equal String.length) in H.
    rewrite !length_app in H. cbn [String.length] in H. lia.
  - rewrite !StrFacts.app_cons in H. injection H as -> H.
    by rewrite (IH b H).
Qed.

Lemma app_longer (a b : string) : b ≠ "" → a +:+ b ≠ a.
Proof.
  intros Hb H. apply (f_equal String.length) in H.
  rewrite length_app in H. destruct b; [done |]. cbn in H. lia.
Qed.

End StrMore.

(** X1: two different locations never get the same report, so the location
    can be read back from what [get_weather] returns. *)
Theorem get_weather_injective (a b : string) (w w' : World) :
  a ≠ b → (get_weather a w).1 ≠ (get_weather b w').1.
Proof.
  intros Hne H. apply Hne.
  unfold get_weather, ret in H. cbn [fst format_value] in H.
  injection H as H. change (a +:+ " is sunny." = b +:+ " is sunny.") in H.
  by apply StrMore.app_inv_tail in H.
Qed.

Lemma get_weather_injective_witness :
  "Tokyo" ≠ "Kyoto"
  ∧ (get_weather "Tokyo" (mkWorld ∅ [])).1 ≠ (get_weather "Kyoto" (mkWorld ∅ ["x"])).1.
Proof.
  split; [compute_done |].
  apply (get_weather_injective "Tokyo" "Kyoto"). compute_done.
Defined.

(** X2: the message of [save_user_preference] does not tell its arguments
    apart: moving a [" - "] from the user id to the key gives two different
    argument triples with the same message. *)
Theorem save_user_preference_ambiguous (a b key val : string) (w : World) :
  save_user_preference (a +:+ " - " +:+ b) key val w
  = save_user_preference a (b +:+ " - " +:+ key) val w
  ∧ a +:+ " - " +:+ b ≠ a.
Proof.
  split.
  - unfold save_user_preference, ret. cbn [format_value].
    by rewrite !StrFacts.app_assoc.
  - apply StrMore.app_longer. by destruct b.
Qed.

(** X3: the answer for an unknown user is given for the ids outside the
    table and for no other: a known id never gets it. *)
Theorem get_user_profile_unknown_iff (user_id : string) (w : World) :
  (get_user_profile user_id w).1 = Returned "User: Unknown, Prefs: {}"
  ↔ user_id ∉ dict_keys profiles.
Proof.
  split.
  - intros H Hin. rewrite profiles_keys in Hin.
    repeat (apply elem_of_cons in Hin as [->|Hin]; [by vm_compute in H |]).
    by apply elem_of_nil in Hin.
  - intros H%dict_lookup_None.
    unfold get_user_profile, bind, method_get at 1, ret. by rewrite H.
Qed.

(** [save_user_preference] stores nothing: a lookup made after a save,
    for the same user or another, returns what it returns without it. *)
Theorem save_then_get_user_profile (user_id key val user_id' : string) (w : World) :
  (let* saved := save_user_preference user_id key val in
   get_user_profile user_id') w
  = get_user_profile user_id' w.
Proof. reflexivity. Qed.

Lemma model_reads_each_witness :
  let w := mkWorld {[ "MODEL_NAME" := "gpt-4o"; "BASE_URL" := "http://localhost" ]} [] in
  let w' := mkWorld {[ "MODEL_NAME" := "gpt-4o"; "BASE_URL" := "http://localhost";
                       "LANG" := "C" ]} [] in
  (model w).1 = (model w').1 ∧ agree_on client_variables w w'.
Proof.
  intros w w'.
  assert ((model w).1 = (model w').1) as H by (vm_compute; reflexivity).
  split; [exact H | exact (model_reads_each w w' H)].
Defined.

(** * The turns with the agent *)

Module DriverFacts.
Import Driver.

Section Agent.
Context {Store E : Type}.
Variable agent : CustomAgentState → option string → Store → (CustomAgentState + E) * Store.

(** A run of [p ≫= f] is a run of [p] followed, when [p] reaches its end, by
    a run of [f] from the store [p] left. *)
Lemma exec_bind {A B} (p : script A) (f : A → script B) (s : Store) :
  exec agent (p ≫= f) s =
  let r := exec agent p s in
  match result r with
  | Finished a =>
      let r' := exec agent (f a) (store r) in
      Run (trace r ++ trace r') (result r') (store r')
  | IndexError => Run (trace r) IndexError (store r)
  | AgentError e => Run (trace r) (AgentError e) (store r)
  end.
Proof.
  revert s. induction p as [a| |input thread k IH|line k IH]; intros s.
  - change (Return a ≫= f) with (f a). cbn. by destruct (exec agent (f a) s).
  - reflexivity.
  - change (exec agent (Invoke input thread k ≫= f) s)
      with (match agent input thread s with
            | (inl reply, s') =>
                let r := exec agent (k reply ≫= f) s' in
                Run (Invoked input thread :: trace r) (result r) (store r)
            | (inr e, s') => Run [Invoked input thread] (AgentError e) s'
            end).
    cbn [exec]. destruct (agent input thread s) as [[reply|e] s']; [| reflexivity].
    rewrite IH. cbn zeta. by destruct (result (exec agent (k reply) s')).
  - change (exec agent (Print line k ≫= f) s)
      with (let r := exec agent (k ≫= f) s in
            Run (Printed line :: trace r) (result r) (store r)).
    cbn [exec]. rewrite IH. cbn zeta. by destruct (result (exec agent k s)).
Qed.

(** What holds of every call of the script holds of every call of a run. *)
Lemma every_call_exec {A} (P : CustomAgentState → option string → Prop)
    (p : script A) (s : Store) :
  every_call P p → Forall (λ c, P c.1 c.2) (invocations (trace (exec agent p s))).
Proof.
  revert s. induction p as [a| |input thread k IH|line k IH]; intros s H; cbn in *.
  - constructor.
  - constructor.
  - destruct H as [HP Hk].
    destruct (agent input thread s) as [[reply|e] s']; cbn.
    + constructor; [exact HP | by apply IH].
    + by repeat constructor.
  - by apply IH.
Qed.

End Agent.

Lemma every_call_bind {A B} (P : CustomAgentState → option string → Prop)
    (p : script A) (f : A → script B) :
  every_call P p → (∀ a, every_call P (f a)) → every_call P (p ≫= f).
Proof.
  intros Hp Hf. induction p as [a| |input thread k IH|line k IH]; cbn in *.
  - apply Hf.
  - done.
  - destruct Hp as [HP Hk]. split; [done |]. intros reply. by apply IH.
  - by apply IH.
Qed.

Lemma every_call_invoke (P : CustomAgentState → option string → Prop)
    (input : CustomAgentState) (thread : option string) :
  P input thread → every_call P (invoke input thread).
Proof. by split. Qed.

Lemma every_call_print_args (P : CustomAgentState → option string → Prop)
    (args : list string) :
  every_call P (print_args args).
Proof. exact I. Qed.

Lemma every_call_last_item {X} (P : CustomAgentState → option string → Prop)
    (l : list X) :
  every_call P (last_item l).
Proof. unfold last_item. by destruct (last l). Qed.

(** Every call of the second script satisfies what its three calls satisfy. *)
Lemma every_call_memory_script (P : CustomAgentState → option string → Prop) :
  P input1 (Some thread_id) → P input2 (Some thread_id) → P input3 (Some thread_id) →
  every_call P memory_script.
Proof.
  intros H1 H2 H3. unfold memory_script.
  repeat first
    [ apply every_call_bind; [| intros ?]
    | apply every_call_print_args
    | apply every_call_last_item
    | by apply every_call_invoke ].
Qed.

(** Case analysis on what the agent answers at each call of a script, and on
    whether the state returned has a last message. *)
Ltac run_case agent :=
  match goal with
  | |- context [match agent ?i ?t ?s with _ => _ end] =>
      destruct (agent i t s) as [[?|?] ?] eqn:?
  | |- context [match last ?l with _ => _ end] =>
      destruct (last l) eqn:?
  end; cbn -[pretty last].

Ltac run_cases agent :=
  unfold memory_script, tool_script, last_item; cbn -[pretty last];
  repeat run_case agent.

Section Scripts.
Context {Store E : Type}.
Variable agent : CustomAgentState → option string → Store → (CustomAgentState + E) * Store.

(** *** use-agent-tool.py *)

(** X5: whatever the agent does, the first script calls it once, with the
    one question of the user and no thread id, and calls [print] at most
    once. *)
Theorem tool_script_single_call (s : Store) :
  invocations (trace (exec agent tool_script s)) = [(tool_input, None)]
  ∧ length (printed (trace (exec agent tool_script s))) ≤ 1.
Proof. run_cases agent; split; (reflexivity || lia). Qed.

(** X6: when the state the agent returns has messages, the first script
    calls [print] once, with the text of the last message and of no other,
    and ends. *)
Theorem tool_script_prints_last (s s' : Store) (reply : CustomAgentState) (m : message) :
  agent tool_input None s = (inl reply, s') →
  last (messages reply) = Some m →
  exec agent tool_script s
  = Run [Invoked tool_input None; Printed (content m)] (Finished ()) s'.
Proof.
  intros Hcall Hlast. unfold tool_script, last_item. cbn -[last].
  rewrite Hcall. cbn -[last]. by rewrite Hlast.
Qed.

(** X7: when the state the agent returns has no message, indexing its last
    message raises [IndexError] and the first script prints nothing. *)
Theorem tool_script_empty_reply (s s' : Store) (reply : CustomAgentState) :
  agent tool_input None s = (inl reply, s') →
  messages reply = [] →
  exec agent tool_script s = Run [Invoked tool_input None] IndexError s'.
Proof.
  intros Hcall Hnil. unfold tool_script, last_item. cbn -[last].
  rewrite Hcall. cbn -[last]. by rewrite Hnil.
Qed.

(** *** use-agent-with-memory-1.py *)

(** X8: every call of the second script, whatever the agent answered before,
    is made under the thread id [thread_001]. *)
Theorem memory_script_same_thread (s : Store) :
  Forall (λ c, c.2 = Some "thread_001")
         (invocations (trace (exec agent memory_script s))).
Proof.
  apply (every_call_exec agent (λ _ thread, thread = Some "thread_001")).
  by apply every_call_memory_script.
Qed.

(** X9: every call of the second script passes one message only, the new
    turn of the user, for the user [user_123]: the script never sends the
    earlier turns again. *)
Theorem memory_script_one_new_message (s : Store) :
  Forall (λ c, (∃ text, messages c.1 = [Message "user" text])
               ∧ user_id c.1 = Some "user_123")
         (invocations (trace (exec agent memory_script s))).
Proof.
  apply (every_call_exec agent
           (λ input _, (∃ text, messages input = [Message "user" text])
                       ∧ user_id input = Some "user_123")).
  apply every_call_memory_script; (split; [by eexists | reflexivity]).
Qed.

(** X10: the calls of the second script carry the interaction counts 1, 2, 3
    in this order: a run makes the first calls of that list and no other. *)
Theorem memory_script_counts_in_order (s : Store) :
  (λ c, interaction_count c.1) <$> invocations (trace (exec agent memory_script s))
  `prefix_of` [Some 1%Z; Some 2%Z; Some 3%Z].
Proof.
  run_cases agent;
    first [ by exists [Some 2%Z; Some 3%Z]
          | by exists [Some 3%Z]
          | by exists [] ].
Qed.

(** X11: a run of the second script that does not reach the end stops at the
    call that failed: nothing is printed and no call is made after it. *)
Theorem memory_script_fail_stop (s : Store) :
  result (exec agent memory_script s) ≠ Finished () →
  ∃ input thread, last (trace (exec agent memory_script s)) = Some (Invoked input thread).
Proof. run_cases agent; intros H; by eauto. Qed.

(** X12: the second script reaches its end exactly when it has called
    [print] eleven times, and then it has called the agent three times. *)
Theorem memory_script_finished (s : Store) :
  (result (exec agent memory_script s) = Finished ()
   ↔ length (printed (trace (exec agent memory_script s))) = 11)
  ∧ (result (exec agent memory_script s) = Finished ()
     → length (invocations (trace (exec agent memory_script s))) = 3).
Proof. run_cases agent; (split; [split |]); (done || lia). Qed.

(** X13: after a first answer with messages, the third call of [print]
    writes the interaction count of the state returned, and 0 when that
    state has none. *)
Theorem memory_script_interaction_count (s s1 : Store) (result1 : CustomAgentState) :
  agent input1 (Some thread_id) s = (inl result1, s1) →
  messages result1 ≠ [] →
  printed (trace (exec agent memory_script s)) !! 2
  = Some ("Interaction Count: " +:+ pretty (default 0%Z (interaction_count result1))).
Proof.
  intros Hcall [m Hlast]%last_is_Some.
  unfold memory_script, last_item. cbn -[pretty last].
  rewrite Hcall. cbn -[pretty last]. by rewrite Hlast.
Qed.

(** X14: after two answers with messages, the seventh call of [print]
    writes the number of messages of the state the second call returned. *)
Theorem memory_script_history_length (s s1 s2 : Store) (result1 result2 : CustomAgentState) :
  agent input1 (Some thread_id) s = (inl result1, s1) →
  messages result1 ≠ [] →
  agent input2 (Some thread_id) s1 = (inl result2, s2) →
  messages result2 ≠ [] →
  printed (trace (exec agent memory_script s)) !! 6
  = Some ("Message History Length: " +:+ pretty (length (messages result2))).
Proof.
  intros Hcall1 [m1 Hlast1]%last_is_Some Hcall2 [m2 Hlast2]%last_is_Some.
  unfold memory_script, last_item. cbn -[pretty last].
  rewrite Hcall1. cbn -[pretty last]. rewrite Hlast1. cbn -[pretty last].
  rewrite Hcall2. cbn -[pretty last]. by rewrite Hlast2.
Qed.

End Scripts.

Lemma tool_script_prints_last_witness :
  let reply := mkState (messages tool_input ++ [Message "assistant" "ok"])
                       None None None None in
  stateless_agent tool_input None () = (inl reply, ())
  ∧ last (messages reply) = Some (Message "assistant" "ok")
  ∧ exec stateless_agent tool_script ()
    = Run [Invoked tool_input None; Printed "ok"] (Finished ()) ().
Proof.
  intros reply.
  assert (stateless_agent tool_input None () = (inl reply, ())) as Hcall by reflexivity.
  assert (last (messages reply) = Some (Message "assistant" "ok")) as Hlast by reflexivity.
  split; [exact Hcall | split; [exact Hlast |]].
  exact (tool_script_prints_last stateless_agent () () reply _ Hcall Hlast).
Defined.

Lemma tool_script_empty_reply_witness :
  let reply := mkState [] None None None None in
  silent_agent tool_input None () = (inl reply, ())
  ∧ messages reply = []
  ∧ exec silent_agent tool_script () = Run [Invoked tool_input None] IndexError ().
Proof.
  intros reply.
  assert (silent_agent tool_input None () = (inl reply, ())) as Hcall by reflexivity.
  assert (messages reply = []) as Hnil by reflexivity.
  split; [exact Hcall | split; [exact Hnil |]].
  exact (tool_script_empty_reply silent_agent () () reply Hcall Hnil).
Defined.

Lemma memory_script_fail_stop_witness :
  result (exec failing_agent memory_script ()) ≠ Finished ()
  ∧ ∃ input thread,
      last (trace (exec failing_agent memory_script ())) = Some (Invoked input thread).
Proof.
  assert (result (exec failing_agent memory_script ()) ≠ Finished ()) as H
    by (vm_compute; discriminate).
  split; [exact H | exact (memory_script_fail_stop failing_agent () H)].
Defined.

Lemma memory_script_interaction_count_witness :
  let result1 := mkState (messages input1 ++ [Message "assistant" "ok"])
                         None None None None in
  stateless_agent input1 (Some thread_id) () = (inl result1, ())
  ∧ messages result1 ≠ []
  ∧ printed (trace (exec stateless_agent memory_script ())) !! 2
    = Some "Interaction Count: 0".
Proof.
  intros result1.
  assert (stateless_agent input1 (Some thread_id) () = (inl result1, ())) as Hcall
    by reflexivity.
  assert (messages result1 ≠ []) as Hne by (vm_compute; discriminate).
  split; [exact Hcall | split; [exact Hne |]].
  exact (memory_script_interaction_count stateless_agent () () result1 Hcall Hne).
Defined.

Lemma memory_script_history_length_witness :
  let ok := Message "assistant" "ok" in
  let history1 := messages input1 ++ [ok] in
  let history2 := history1 ++ messages input2 ++ [ok] in
  let result1 := mkState history1 (user_id input1) (user_name input1)
                         (preferences input1) (interaction_count input1) in
  let result2 := mkState history2 (user_id input2) (user_name input2)
                         (preferences input2) (interaction_count input2) in
  let s1 : gmap string (list message) := {[ thread_id := history1 ]} in
  let s2 : gmap string (list message) := {[ thread_id := history2 ]} in
  remembering_agent input1 (Some thread_id) ∅ = (inl result1, s1)
  ∧ messages result1 ≠ []
  ∧ remembering_agent input2 (Some thread_id) s1 = (inl result2, s2)
  ∧ messages result2 ≠ []
  ∧ printed (trace (exec remembering_agent memory_script ∅)) !! 6
    = Some "Message History Length: 4".
Proof.
  intros ok history1 history2 result1 result2 s1 s2.
  assert (remembering_agent input1 (Some thread_id) ∅ = (inl result1, s1)) as H1
    by (vm_compute; reflexivity).
  assert (messages result1 ≠ []) as N1 by (vm_compute; discriminate).
  assert (remembering_agent input2 (Some thread_id) s1 = (inl result2, s2)) as H2
    by (vm_compute; reflexivity).
  assert (messages result2 ≠ []) as N2 by (vm_compute; discriminate).
  split; [exact H1 | split; [exact N1 | split; [exact H2 | split; [exact N2 |]]]].
  exact (memory_script_history_length remembering_agent ∅ s1 s2 result1 result2
           H1 N1 H2 N2).
Defined.

End DriverFacts.
